(** * Expiration points of fee grants: x/fee_grant/internal/types/expiration.go

    A shallow embedding of the two value types [ExpiresAt] and [Duration]
    and of their methods, followed by the properties the specification
    states about them.

    Go's [int64] is a [Z] whose arithmetic is reduced to the signed 64-bit
    range ([Int64.wrap]); comparisons are the boolean comparisons of [Z].
    A method that returns [error] returns [option error] here ([None] is
    Go's [nil]); [Step], which returns a pair, returns a pair; [MustStep],
    which may panic, returns an [outcome]. *)

From Stdlib Require Import ZArith Lia Bool String.

Local Open Scope string_scope.
Local Open Scope Z_scope.

(** ** Signed 64-bit integers *)

Module Int64.

Definition min_int : Z := - 2 ^ 63.
Definition max_int : Z := 2 ^ 63 - 1.

Definition in_range (z : Z) : Prop := min_int <= z <= max_int.

(** Reduction of an integer to its two's complement int64 value. *)
Definition wrap (z : Z) : Z := (z + 2 ^ 63) mod 2 ^ 64 - 2 ^ 63.

(** Go's [+] and [-] on int64. *)
Definition add (a b : Z) : Z := wrap (a + b).
Definition sub (a b : Z) : Z := wrap (a - b).

End Int64.

(** ** The standard library's package [time]

    The package is Go's, not the repository's.  An instant is the number of
    nanoseconds that separate it from the zero instant (January 1, year 1,
    00:00:00 UTC), negative before it.  Go stores an instant as an int64
    count of seconds since the zero instant and a count of nanoseconds
    within the second, from 0 to 999999999: these are [sec] and [nsec], and
    an instant is representable when its seconds are an int64.  The zero
    instant is the one with both parts 0, and [Before] compares seconds,
    then nanoseconds.  A [time.Duration] is an int64 count of nanoseconds.

    [Add] is Go's: it splits the Duration into seconds and nanoseconds,
    carries between the two, and adds the seconds with [addSec], which
    saturates at the ends of the int64 range instead of wrapping.  Instants
    carry no monotonic clock reading (those of block headers and of decoded
    values have none), and locations play no part in these methods. *)

Module time.

Definition Time : Type := Z.
Definition Duration : Type := Z.

(** The zero value [time.Time{}]. *)
Definition zero : Time := 0.

(** The constant [time.Second]. *)
Definition Second : Duration := 1000000000.

Definition sec (t : Time) : Z := t / Second.
Definition nsec (t : Time) : Z := t mod Second.

(** The instant with the given seconds and nanoseconds. *)
Definition at_sec_nsec (s n : Z) : Time := s * Second + n.

Definition representable (t : Time) : Prop := Int64.in_range (sec t).

Definition IsZero (t : Time) : bool := t =? 0.
Definition Before (t u : Time) : bool := t <? u.

Definition addSec (ext d : Z) : Z :=
  let sum := Int64.add ext d in
  if Bool.eqb (sum >? ext) (d >? 0) then sum
  else if d >? 0 then 2 ^ 63 - 1
  else - (2 ^ 63 - 1).

Definition Add (t : Time) (d : Duration) : Time :=
  let dsec := Z.quot d Second in
  let nsec := nsec t + Z.rem d Second in
  if nsec >=? Second then
    at_sec_nsec (addSec (sec t) (dsec + 1)) (nsec - Second)
  else if nsec <? 0 then
    at_sec_nsec (addSec (sec t) (dsec - 1)) (nsec + Second)
  else at_sec_nsec (addSec (sec t) dsec) nsec.

End time.

(** ** Errors *)

(** Modelled from the spec: the constructor [ErrInvalidDuration] lives in the
    package's error file, which is not among the sources.  The spec has a
    single error kind, InvalidDuration, carrying a human-readable reason. *)
Inductive error : Type :=
| ErrInvalidDuration (reason : string).

(** What a call that may panic does. *)
Inductive outcome (A : Type) : Type :=
| Returns (a : A)
| Panics (err : error).

Arguments Returns {A} a.
Arguments Panics {A} err.

(** ** The two value types *)

Record ExpiresAt : Type := mkExpiresAt {
  Time : time.Time;
  Height : Z
}.

Record Duration : Type := mkDuration {
  Clock : time.Duration;
  Block : Z
}.

(** The composite literal [ExpiresAt{}]. *)
Definition ExpiresAt_zero : ExpiresAt :=
  {| Time := time.zero; Height := 0 |}.

Definition ExpiresAtTime (t : time.Time) : ExpiresAt :=
  {| Time := t; Height := 0 |}.

Definition ExpiresAtHeight (h : Z) : ExpiresAt :=
  {| Time := time.zero; Height := h |}.

Definition ClockDuration (d : time.Duration) : Duration :=
  {| Clock := d; Block := 0 |}.

Definition BlockDuration (h : Z) : Duration :=
  {| Clock := 0; Block := h |}.

(** ** Methods of [ExpiresAt] *)

Definition ExpiresAt_ValidateBasic (e : ExpiresAt) : option error :=
  if negb (time.IsZero (Time e)) && negb (Height e =? 0) then
    Some (ErrInvalidDuration "both time and height are set")
  else if Height e <? 0 then
    Some (ErrInvalidDuration "negative height")
  else None.

Definition IsZero (e : ExpiresAt) : bool :=
  time.IsZero (Time e) && (Height e =? 0).

Definition FastForward (e : ExpiresAt) (t : time.Time) (h : Z) : ExpiresAt :=
  if negb (time.IsZero (Time e)) then ExpiresAtTime t
  else ExpiresAtHeight h.

Definition IsExpired (e : ExpiresAt) (t : time.Time) (h : Z) : bool :=
  if negb (time.IsZero (Time e)) && negb (time.Before t (Time e)) then true
  else negb (Height e =? 0) && (h >=? Height e).

Definition IsCompatible (e : ExpiresAt) (p : Duration) : bool :=
  if negb (time.IsZero (Time e)) then Clock p >? 0
  else Block p >? 0.

Definition Step (e : ExpiresAt) (p : Duration) : ExpiresAt * option error :=
  if negb (IsCompatible e p) then
    (ExpiresAt_zero,
     Some (ErrInvalidDuration "expires_at and Duration have different units"))
  else if negb (time.IsZero (Time e)) then
    ({| Time := time.Add (Time e) (Clock p); Height := Height e |}, None)
  else
    ({| Time := Time e; Height := Int64.add (Height e) (Block p) |}, None).

Definition MustStep (e : ExpiresAt) (p : Duration) : outcome ExpiresAt :=
  match Step e p with
  | (_, Some err) => Panics err
  | (res, None) => Returns res
  end.

Definition PrepareForExport (e : ExpiresAt) (dumpTime : time.Time)
    (dumpHeight : Z) : ExpiresAt :=
  if negb (Height e =? 0) then
    {| Time := Time e; Height := Int64.sub (Height e) dumpHeight |}
  else e.

(** ** Methods of [Duration] *)

Definition Duration_ValidateBasic (p : Duration) : option error :=
  if (Block p =? 0) && (Clock p =? 0) then
    Some (ErrInvalidDuration "neither time and height are set")
  else if negb (Block p =? 0) && negb (Clock p =? 0) then
    Some (ErrInvalidDuration "both time and height are set")
  else if Block p <? 0 then
    Some (ErrInvalidDuration "negative block step")
  else if Clock p <? 0 then
    Some (ErrInvalidDuration "negative clock step")
  else None.

(** ** Vocabulary of the specification *)

(** The two invariants of the data model. *)
Definition at_most_one_set (e : ExpiresAt) : Prop :=
  time.IsZero (Time e) = true \/ Height e = 0.

Definition height_nonneg (e : ExpiresAt) : Prop := 0 <= Height e.

Definition invariants (e : ExpiresAt) : Prop :=
  at_most_one_set e /\ height_nonneg e.

(** A point whose time field is set; one that is a time-point (time set,
    height zero); one that is a step-point (time zero, height non-zero). *)
Definition time_set (e : ExpiresAt) : Prop := time.IsZero (Time e) = false.

Definition time_point (e : ExpiresAt) : Prop :=
  time.IsZero (Time e) = false /\ Height e = 0.

Definition step_point (e : ExpiresAt) : Prop :=
  time.IsZero (Time e) = true /\ Height e <> 0.

(** Fields of type int64 hold int64 values. *)
Definition ExpiresAt_typed (e : ExpiresAt) : Prop := Int64.in_range (Height e).

Definition Duration_typed (p : Duration) : Prop :=
  Int64.in_range (Clock p) /\ Int64.in_range (Block p).

(** * Properties *)

(** ** Facts about int64 arithmetic and instants *)

Module Int64Facts.

Lemma wrap_in_range (z : Z) : Int64.in_range (Int64.wrap z).
Proof.
  unfold Int64.in_range, Int64.wrap, Int64.min_int, Int64.max_int.
  pose proof (Z.mod_pos_bound (z + 2 ^ 63) (2 ^ 64) ltac:(lia)). lia.
Qed.

Lemma wrap_small (z : Z) : Int64.in_range z -> Int64.wrap z = z.
Proof.
  unfold Int64.in_range, Int64.wrap, Int64.min_int, Int64.max_int. intros Hz.
  rewrite Z.mod_small by lia. lia.
Qed.

Lemma add_exact (a b : Z) :
  Int64.in_range (a + b) -> Int64.add a b = a + b.
Proof. apply wrap_small. Qed.

Lemma sub_exact (a b : Z) :
  Int64.in_range (a - b) -> Int64.sub a b = a - b.
Proof. apply wrap_small. Qed.

Lemma add_0_l (b : Z) : Int64.in_range b -> Int64.add 0 b = b.
Proof. intros Hb. unfold Int64.add. now rewrite Z.add_0_l, wrap_small. Qed.

(** Subtracting a dump height that is not negative from a positive height
    never leaves the int64 range. *)
Lemma sub_of_heights_in_range (a b : Z) :
  Int64.in_range a -> Int64.in_range b -> 0 < a -> 0 <= b ->
  Int64.in_range (a - b).
Proof.
  unfold Int64.in_range, Int64.min_int, Int64.max_int. lia.
Qed.

End Int64Facts.

Module timeFacts.

Lemma IsZero_zero : time.IsZero time.zero = true.
Proof. reflexivity. Qed.

Lemma IsZero_true (t : time.Time) : time.IsZero t = true <-> t = time.zero.
Proof. unfold time.IsZero, time.zero. apply Z.eqb_eq. Qed.

Lemma IsZero_false (t : time.Time) : time.IsZero t = false <-> t <> time.zero.
Proof. unfold time.IsZero, time.zero. apply Z.eqb_neq. Qed.

Lemma Before_false (t u : time.Time) : time.Before t u = false <-> u <= t.
Proof. unfold time.Before. rewrite Z.ltb_ge. reflexivity. Qed.

Lemma Before_irrefl (t : time.Time) : time.Before t t = false.
Proof. apply Before_false. lia. Qed.

Lemma Before_pred (t : time.Time) : time.Before (t - 1) t = true.
Proof. unfold time.Before. apply Z.ltb_lt. lia. Qed.

End timeFacts.

(** ** Adding to an instant *)

Module timeArith.

Lemma sec_nsec (t : time.Time) :
  t = time.at_sec_nsec (time.sec t) (time.nsec t)
  /\ 0 <= time.nsec t < time.Second.
Proof.
  unfold time.at_sec_nsec, time.sec, time.nsec, time.Second. split.
  - pose proof (Z.div_mod t 1000000000 ltac:(lia)). lia.
  - apply Z.mod_pos_bound. lia.
Qed.

Lemma sec_at (s n : Z) :
  0 <= n < time.Second -> time.sec (time.at_sec_nsec s n) = s.
Proof.
  unfold time.at_sec_nsec, time.sec, time.Second. intros Hn.
  symmetry. apply (Z.div_unique _ _ s n); lia.
Qed.

Lemma nsec_at (s n : Z) :
  0 <= n < time.Second -> time.nsec (time.at_sec_nsec s n) = n.
Proof.
  unfold time.at_sec_nsec, time.nsec, time.Second. intros Hn.
  symmetry. apply (Z.mod_unique _ _ s n); lia.
Qed.

(** Within the int64 range [addSec] adds. *)
Lemma addSec_exact (s a : Z) :
  Int64.in_range (s + a) -> time.addSec s a = s + a.
Proof.
  intros Hsum. unfold time.addSec.
  rewrite (Int64Facts.add_exact _ _ Hsum). rewrite !Z.gtb_ltb.
  destruct (Z.ltb_spec s (s + a)), (Z.ltb_spec 0 a); cbn; lia.
Qed.

(** Forwards, from an int64, [addSec] stops at the largest int64. *)
Lemma addSec_forwards (s a : Z) :
  Int64.in_range s -> Int64.in_range a -> 0 <= a ->
  time.addSec s a = Z.min (s + a) Int64.max_int.
Proof.
  intros Hs Ha Hpos.
  destruct (Z.le_gt_cases (s + a) Int64.max_int) as [Hfit | Hover].
  - rewrite addSec_exact, Z.min_l; unfold Int64.in_range in *; lia.
  - rewrite Z.min_r by lia. unfold time.addSec, Int64.add, Int64.wrap.
    unfold Int64.in_range, Int64.min_int, Int64.max_int in *.
    replace (s + a + 2 ^ 63) with ((s + a - 2 ^ 63) + 1 * 2 ^ 64) by lia.
    rewrite Z.mod_add by lia. rewrite Z.mod_small by lia.
    rewrite !Z.gtb_ltb.
    destruct (Z.ltb_spec s (s + a - 2 ^ 63 - 2 ^ 63)), (Z.ltb_spec 0 a);
      cbn; lia.
Qed.

(** When the sum is representable, [Add] adds. *)
Lemma Add_exact (t : time.Time) (d : time.Duration) :
  time.representable (t + d) -> time.Add t d = t + d.
Proof.
  unfold time.representable. intros Hsum.
  destruct (sec_nsec t) as [Ht Hn].
  pose proof (Z.quot_rem' d time.Second) as Hd.
  pose proof (Z.rem_bound_abs d time.Second ltac:(unfold time.Second; lia))
    as Hr.
  unfold time.Add.
  set (s := time.sec t) in *. set (n := time.nsec t) in *.
  set (q := Z.quot d time.Second) in *. set (r := Z.rem d time.Second) in *.
  unfold time.at_sec_nsec, time.Second in *.
  rewrite Z.geb_leb.
  destruct (Z.leb_spec 1000000000 (n + r)) as [Hcarry | Hno].
  - assert (Hsec : time.sec (t + d) = s + (q + 1)).
    { unfold time.sec, time.Second. symmetry.
      apply (Z.div_unique _ _ _ (n + r - 1000000000)); lia. }
    rewrite Hsec in Hsum. rewrite (addSec_exact _ _ Hsum). lia.
  - destruct (Z.ltb_spec (n + r) 0) as [Hborrow | Hnone].
    + assert (Hsec : time.sec (t + d) = s + (q - 1)).
      { unfold time.sec, time.Second. symmetry.
        apply (Z.div_unique _ _ _ (n + r + 1000000000)); lia. }
      rewrite Hsec in Hsum. rewrite (addSec_exact _ _ Hsum). lia.
    + assert (Hsec : time.sec (t + d) = s + q).
      { unfold time.sec, time.Second. symmetry.
        apply (Z.div_unique _ _ _ (n + r)); lia. }
      rewrite Hsec in Hsum. rewrite (addSec_exact _ _ Hsum). lia.
Qed.

(** Forwards by an int64 Duration, from a representable instant, [Add] adds
    and stops at the last representable second. *)
Lemma Add_forwards (t : time.Time) (d : time.Duration) :
  time.representable t -> Int64.in_range d -> 0 < d ->
  time.Add t d
  = time.at_sec_nsec
      (Z.min (time.sec t + (time.nsec t + d) / time.Second) Int64.max_int)
      ((time.nsec t + d) mod time.Second).
Proof.
  unfold time.representable. intros Ht Hd Hpos.
  destruct (sec_nsec t) as [_ Hn].
  pose proof (Z.quot_rem' d time.Second) as Hqr.
  pose proof (Z.rem_bound_pos d time.Second ltac:(lia)
                ltac:(unfold time.Second; lia)) as Hr.
  unfold time.Add.
  set (s := time.sec t) in *. set (n := time.nsec t) in *.
  set (q := Z.quot d time.Second) in *. set (r := Z.rem d time.Second) in *.
  unfold time.Second in *.
  assert (Hq : 0 <= q) by lia.
  assert (Hqmax : Int64.in_range (q + 1) /\ Int64.in_range q)
    by (unfold Int64.in_range, Int64.min_int, Int64.max_int in *; lia).
  rewrite Z.geb_leb.
  destruct (Z.leb_spec 1000000000 (n + r)) as [Hcarry | Hno].
  - rewrite <- (Z.div_unique (n + d) 1000000000 (q + 1) (n + r - 1000000000))
      by lia.
    rewrite <- (Z.mod_unique (n + d) 1000000000 (q + 1) (n + r - 1000000000))
      by lia.
    rewrite addSec_forwards by first [exact Ht | apply Hqmax | lia]. reflexivity.
  - destruct (Z.ltb_spec (n + r) 0) as [Hborrow | Hnone]; [lia|].
    rewrite <- (Z.div_unique (n + d) 1000000000 q (n + r)) by lia.
    rewrite <- (Z.mod_unique (n + d) 1000000000 q (n + r)) by lia.
    rewrite addSec_forwards by first [exact Ht | apply Hqmax | lia]. reflexivity.
Qed.

(** Two such additions in a row: the Durations enter through their sum only,
    so the order of the two does not matter. *)
Lemma Add_Add_forwards (t : time.Time) (c d : time.Duration) :
  time.representable t ->
  Int64.in_range c -> 0 < c -> Int64.in_range d -> 0 < d ->
  time.Add (time.Add t c) d
  = time.at_sec_nsec
      (Z.min (time.sec t + (time.nsec t + (c + d)) / time.Second)
         Int64.max_int)
      ((time.nsec t + (c + d)) mod time.Second).
Proof.
  intros Ht Hc Hcpos Hd Hdpos.
  rewrite (Add_forwards t c Ht Hc Hcpos).
  destruct (sec_nsec t) as [_ Hn].
  set (s := time.sec t) in *. set (n := time.nsec t) in *.
  assert (Hmod : 0 <= (n + c) mod time.Second < time.Second)
    by (apply Z.mod_pos_bound; unfold time.Second; lia).
  assert (Hdiv : 0 <= (n + c) / time.Second)
    by (apply Z.div_pos; unfold time.Second; lia).
  assert (Hrep : time.representable
                   (time.at_sec_nsec
                      (Z.min (s + (n + c) / time.Second) Int64.max_int)
                      ((n + c) mod time.Second))).
  { unfold time.representable. rewrite (sec_at _ _ Hmod).
    unfold time.representable, Int64.in_range, Int64.min_int,
      Int64.max_int in *. lia. }
  rewrite (Add_forwards _ d Hrep Hd Hdpos).
  rewrite (sec_at _ _ Hmod), (nsec_at _ _ Hmod).
  pose proof (Z.div_mod (n + c) time.Second
                ltac:(unfold time.Second; lia)) as Hsplit.
  set (a := (n + c) / time.Second) in *.
  set (m := (n + c) mod time.Second) in *.
  assert (Hnsec : (n + (c + d)) mod time.Second = (m + d) mod time.Second).
  { replace (n + (c + d)) with (m + d + a * time.Second) by lia.
    apply Z.mod_add. unfold time.Second. lia. }
  assert (Hsec : (n + (c + d)) / time.Second = a + (m + d) / time.Second).
  { replace (n + (c + d)) with (a * time.Second + (m + d)) by lia.
    apply Z.div_add_l. unfold time.Second. lia. }
  rewrite Hnsec, Hsec.
  assert (Hdiv2 : 0 <= (m + d) / time.Second)
    by (apply Z.div_pos; unfold time.Second; lia).
  f_equal. lia.
Qed.

Lemma Add_Add_swap (t : time.Time) (c d : time.Duration) :
  time.representable t ->
  Int64.in_range c -> 0 < c -> Int64.in_range d -> 0 < d ->
  time.Add (time.Add t c) d = time.Add (time.Add t d) c.
Proof.
  intros Ht Hc Hcpos Hd Hdpos.
  rewrite (Add_Add_forwards t c d), (Add_Add_forwards t d c) by assumption.
  now rewrite (Z.add_comm c d).
Qed.

(** Three additions at the ends of the range: five seconds before the last
    second, ten seconds more stop at the last second; at the last
    nanosecond of the last second, one nanosecond more falls back to the
    start of that second; sixty seconds before the zero instant, sixty
    seconds more give the zero instant. *)
Example Add_stops_at_the_last_second :
  time.Add (time.at_sec_nsec (Int64.max_int - 5) 0) (10 * time.Second)
  = time.at_sec_nsec Int64.max_int 0.
Proof. reflexivity. Qed.

Example Add_falls_back_within_the_last_second :
  time.Add (time.at_sec_nsec Int64.max_int 999999999) 1
  = time.at_sec_nsec Int64.max_int 0.
Proof. reflexivity. Qed.

Example Add_reaches_the_zero_instant :
  time.Add (-60 * time.Second) (60 * time.Second) = time.zero.
Proof. reflexivity. Qed.

End timeArith.

(** ** Proof automation

    [methods] unfolds the embedded methods; [decide_tests] turns every boolean
    test of the goal into the proposition it decides. *)

Ltac methods :=
  unfold ExpiresAt_ValidateBasic, Duration_ValidateBasic, IsZero, FastForward,
    IsExpired, IsCompatible, Step, MustStep, PrepareForExport,
    ExpiresAtTime, ExpiresAtHeight, ExpiresAt_zero, ClockDuration,
    BlockDuration, invariants, at_most_one_set, height_nonneg, time_set,
    time_point, step_point, time.IsZero, time.Before, time.zero in *;
  cbn [Time Height Clock Block fst snd] in *.

Ltac decide_tests :=
  rewrite ?Z.gtb_ltb, ?Z.geb_leb in *;
  repeat match goal with
    | |- context [?a =? ?b] => destruct (Z.eqb_spec a b)
    | |- context [?a <? ?b] => destruct (Z.ltb_spec a b)
    | |- context [?a <=? ?b] => destruct (Z.leb_spec a b)
    | H : context [?a =? ?b] |- _ => destruct (Z.eqb_spec a b)
    | H : context [?a <? ?b] |- _ => destruct (Z.ltb_spec a b)
    | H : context [?a <=? ?b] |- _ => destruct (Z.leb_spec a b)
    end;
  cbn [negb andb orb fst snd Time Height Clock Block] in *.

Ltac finish :=
  try solve [ reflexivity | discriminate | lia
            | intuition (first [discriminate | congruence | lia]) ].

Ltac settle := methods; decide_tests; finish.

(** ** Validation *)

Section Validation.

(** What [ValidateBasic] accepts is what the invariants describe. *)
Lemma ExpiresAt_ValidateBasic_invariants (e : ExpiresAt) :
  ExpiresAt_ValidateBasic e = None <-> invariants e.
Proof.
  destruct e as [tm hg]. settle.
Qed.

(** C5. [ExpiresAt.ValidateBasic] returns an InvalidDuration error if and only
    if both fields are non-zero at once or the height is negative; it accepts
    the all-zero value, [ExpiresAtTime t] for every [t] and
    [ExpiresAtHeight h] for every [h >= 0]. *)
Theorem ExpiresAt_ValidateBasic_rejects_iff (e : ExpiresAt) :
  ((exists reason, ExpiresAt_ValidateBasic e = Some (ErrInvalidDuration reason))
   <-> (time_set e /\ Height e <> 0) \/ Height e < 0)
  /\ ExpiresAt_ValidateBasic ExpiresAt_zero = None
  /\ (forall t : time.Time, ExpiresAt_ValidateBasic (ExpiresAtTime t) = None)
  /\ (forall h : Z, 0 <= h -> ExpiresAt_ValidateBasic (ExpiresAtHeight h) = None).
Proof.
  destruct e as [tm hg]. repeat split.
  - intros [reason Hr]. revert Hr. settle.
  - intros Hcase. methods. decide_tests; finish; eauto.
  - intros t. settle.
  - intros h Hh. settle.
Qed.

Lemma ExpiresAt_ValidateBasic_rejects_iff_witness :
  ExpiresAt_ValidateBasic (ExpiresAtHeight 7) = None.
Proof.
  apply (proj2 (proj2 (proj2
           (ExpiresAt_ValidateBasic_rejects_iff ExpiresAt_zero))) 7).
  lia.
Defined.

(** C6. [Duration.ValidateBasic] returns an InvalidDuration error if and only
    if neither field is set, or both are, or one of them is negative; that
    is, it accepts exactly the Durations with exactly one field set, to a
    positive value. *)
Theorem Duration_ValidateBasic_rejects_iff (d : Duration) :
  ((exists reason, Duration_ValidateBasic d = Some (ErrInvalidDuration reason))
   <-> (Clock d = 0 /\ Block d = 0) \/ (Clock d <> 0 /\ Block d <> 0)
       \/ Clock d < 0 \/ Block d < 0)
  /\ (Duration_ValidateBasic d = None
      <-> (0 < Clock d /\ Block d = 0) \/ (Clock d = 0 /\ 0 < Block d)).
Proof.
  destruct d as [ck bk]. repeat split.
  - intros [reason Hr]. revert Hr. settle.
  - intros Hcase. methods. decide_tests; finish; eauto.
  - settle.
  - settle.
Qed.

End Validation.

(** ** Expiry *)

Section Expiry.

Variables (e : ExpiresAt) (t : time.Time) (h : Z).

(** C2. [IsExpired e t h] is true if and only if the time of [e] is set and
    [t] is at or after it, or the height of [e] is non-zero and [h] is at
    least that height.  So the unset value is never expired; a time-point is
    expired at its own instant and not one nanosecond before; a step-point
    of height [N] is expired at step [N] and not at step [N - 1]. *)
Theorem IsExpired_inclusive :
  (IsExpired e t h = true
   <-> (time_set e /\ Time e <= t) \/ (Height e <> 0 /\ Height e <= h))
  /\ (IsZero e = true -> IsExpired e t h = false)
  /\ (time_set e -> IsExpired e (Time e) h = true)
  /\ (time_point e -> IsExpired e (Time e - 1) h = false)
  /\ (Height e <> 0 -> IsExpired e t (Height e) = true)
  /\ (step_point e -> IsExpired e t (Height e - 1) = false).
Proof.
  destruct e as [tm hg]. repeat split.
  - settle.
  - intros Hcase. settle.
  - settle.
  - settle.
  - intros [Hset Hz]. revert Hset Hz. settle.
  - settle.
  - intros [Hz Hnz]. revert Hz Hnz. settle.
Qed.

End Expiry.

Lemma IsExpired_inclusive_witness :
  IsExpired (ExpiresAtHeight 100) 0 99 = false.
Proof.
  apply (proj2 (proj2 (proj2 (proj2 (proj2
           (IsExpired_inclusive (ExpiresAtHeight 100) 0 0)))))).
  split; [reflexivity | cbn; lia].
Defined.

(** ** Advancing a point by a Duration *)

Section Stepping.

Variables (e : ExpiresAt) (d : Duration).

(** The two ways [Step] returns. *)
Lemma Step_incompatible :
  IsCompatible e d = false ->
  Step e d =
  (ExpiresAt_zero,
   Some (ErrInvalidDuration "expires_at and Duration have different units")).
Proof. unfold Step. intros ->. reflexivity. Qed.

Lemma Step_compatible :
  IsCompatible e d = true ->
  Step e d =
  (if negb (time.IsZero (Time e)) then
     {| Time := time.Add (Time e) (Clock d); Height := Height e |}
   else {| Time := Time e; Height := Int64.add (Height e) (Block d) |},
   None).
Proof.
  unfold Step. intros ->. cbn [negb].
  destruct (negb (time.IsZero (Time e))); reflexivity.
Qed.

(** C3. [Step] returns an InvalidDuration error if and only if
    [IsCompatible] is false, and no error on a compatible pair; and
    [IsCompatible] is true if and only if the Duration is positive in the
    unit of the point: the clock span when the time of the point is set, the
    step count when it is not (as for a step-point). *)
Theorem Step_fails_iff_incompatible :
  (IsCompatible e d = false
   <-> exists reason, snd (Step e d) = Some (ErrInvalidDuration reason))
  /\ (IsCompatible e d = true -> snd (Step e d) = None)
  /\ (time_set e -> (IsCompatible e d = true <-> 0 < Clock d))
  /\ (step_point e -> (IsCompatible e d = true <-> 0 < Block d))
  /\ (time.IsZero (Time e) = true -> (IsCompatible e d = true <-> 0 < Block d)).
Proof.
  split; [split|split; [|split; [|split]]].
  - intros Hc. rewrite (Step_incompatible Hc). eexists. reflexivity.
  - intros [reason Hr]. destruct (IsCompatible e d) eqn:Hc; [|reflexivity].
    rewrite (Step_compatible Hc) in Hr. discriminate.
  - intros Hc. now rewrite (Step_compatible Hc).
  - destruct e as [tm hg], d as [ck bk]. settle.
  - destruct e as [tm hg], d as [ck bk]. intros [Hz _]. revert Hz. settle.
  - destruct e as [tm hg], d as [ck bk]. settle.
Qed.

(** C9. On a compatible pair [MustStep] does not panic: it returns the point
    that [Step] returns, without error.  On an incompatible pair it panics,
    with the error of [Step]. *)
Theorem MustStep_returns_or_panics :
  (IsCompatible e d = true ->
   MustStep e d = Returns (fst (Step e d)) /\ snd (Step e d) = None)
  /\ (IsCompatible e d = false ->
      exists err, MustStep e d = Panics err /\ snd (Step e d) = Some err).
Proof.
  split; intros Hc; unfold MustStep.
  - rewrite (Step_compatible Hc). split; reflexivity.
  - rewrite (Step_incompatible Hc). eexists. split; reflexivity.
Qed.

(** C4, as amended. On a compatible pair [Step] keeps the unit and adds,
    within the range of the unit.  On a time-point, when the time of [e]
    plus the clock span is a representable instant other than the zero
    instant, the result is the time-point at that instant (height zero).
    On a step-point, when the height of [e] plus the step count is an int64
    other than 0, the result is the step-point at that height (time
    zero). *)
Theorem Step_adds_in_unit :
  IsCompatible e d = true ->
  (time_point e ->
   time.representable (Time e + Clock d) ->
   Time e + Clock d <> time.zero ->
   Step e d = (ExpiresAtTime (Time e + Clock d), None)
   /\ time_point (fst (Step e d)))
  /\ (step_point e ->
      Int64.in_range (Height e + Block d) ->
      Height e + Block d <> 0 ->
      Step e d = (ExpiresAtHeight (Height e + Block d), None)
      /\ step_point (fst (Step e d))).
Proof.
  intros Hc. rewrite (Step_compatible Hc). unfold time_point, step_point.
  split.
  - intros [Hset Hz] Hrep Hnz. rewrite Hset. cbn [negb fst].
    rewrite (timeArith.Add_exact _ _ Hrep), Hz. unfold ExpiresAtTime.
    cbn [Time Height]. repeat split.
    now apply timeFacts.IsZero_false.
  - intros [Hz Hnz] Hsum Hnew. rewrite Hz. cbn [negb fst].
    rewrite (Int64Facts.add_exact _ _ Hsum).
    apply timeFacts.IsZero_true in Hz. rewrite Hz. unfold ExpiresAtHeight.
    cbn [Time Height]. repeat split. exact Hnew.
Qed.

End Stepping.

Lemma Step_fails_iff_incompatible_witness :
  snd (Step (ExpiresAtTime 1000) (ClockDuration 60)) = None.
Proof.
  apply (proj1 (proj2
           (Step_fails_iff_incompatible (ExpiresAtTime 1000) (ClockDuration 60)))).
  reflexivity.
Defined.

Lemma MustStep_returns_or_panics_witness :
  MustStep (ExpiresAtHeight 100) (BlockDuration 30)
  = Returns (fst (Step (ExpiresAtHeight 100) (BlockDuration 30)))
  /\ snd (Step (ExpiresAtHeight 100) (BlockDuration 30)) = None.
Proof.
  apply (proj1
           (MustStep_returns_or_panics (ExpiresAtHeight 100) (BlockDuration 30))).
  reflexivity.
Defined.

Lemma Step_adds_in_unit_witness :
  (Step (ExpiresAtTime 1000) (ClockDuration 60)
   = (ExpiresAtTime (1000 + 60), None)
   /\ time_point (fst (Step (ExpiresAtTime 1000) (ClockDuration 60))))
  /\ (Step (ExpiresAtHeight 100) (BlockDuration 30)
      = (ExpiresAtHeight (100 + 30), None)
      /\ step_point (fst (Step (ExpiresAtHeight 100) (BlockDuration 30)))).
Proof.
  split.
  - apply (proj1 (Step_adds_in_unit (ExpiresAtTime 1000) (ClockDuration 60)
                    eq_refl)).
    + split; reflexivity.
    + vm_compute. split; discriminate.
    + vm_compute. discriminate.
  - apply (proj2 (Step_adds_in_unit (ExpiresAtHeight 100) (BlockDuration 30)
                    eq_refl)).
    + split; [reflexivity | discriminate].
    + vm_compute. split; discriminate.
    + vm_compute. discriminate.
Defined.

(** C4 as stated fails where a step lands on the zero instant: the
    time-point sixty seconds before it, stepped by sixty seconds, is
    compatible and succeeds, and the result is the zero value, whose time
    is not set. *)
Lemma Step_onto_the_zero_instant :
  time_point (ExpiresAtTime (-60000000000))
  /\ time.representable (-60000000000)
  /\ Duration_typed (ClockDuration 60000000000)
  /\ Duration_ValidateBasic (ClockDuration 60000000000) = None
  /\ IsCompatible (ExpiresAtTime (-60000000000)) (ClockDuration 60000000000)
     = true
  /\ Step (ExpiresAtTime (-60000000000)) (ClockDuration 60000000000)
     = (ExpiresAt_zero, None)
  /\ ~ time_set
        (fst (Step (ExpiresAtTime (-60000000000))
                (ClockDuration 60000000000)))
  /\ ~ time_point
        (fst (Step (ExpiresAtTime (-60000000000))
                (ClockDuration 60000000000))).
Proof.
  repeat apply conj; try reflexivity.
  - vm_compute. discriminate.
  - vm_compute. discriminate.
  - vm_compute. discriminate.
  - vm_compute. discriminate.
  - vm_compute. discriminate.
  - vm_compute. discriminate.
  - intros Hset. vm_compute in Hset. discriminate.
  - intros [Hset _]. vm_compute in Hset. discriminate.
Qed.

(** Where the sum leaves int64 the height wraps around: stepping the
    step-point at height 1 by the largest step count is compatible and
    succeeds, and the height of the result is the least int64. *)
Lemma Step_height_wraps_around :
  step_point (ExpiresAtHeight 1)
  /\ ExpiresAt_typed (ExpiresAtHeight 1)
  /\ Duration_typed (BlockDuration Int64.max_int)
  /\ Duration_ValidateBasic (BlockDuration Int64.max_int) = None
  /\ IsCompatible (ExpiresAtHeight 1) (BlockDuration Int64.max_int) = true
  /\ Step (ExpiresAtHeight 1) (BlockDuration Int64.max_int)
     = (ExpiresAtHeight Int64.min_int, None)
  /\ Height (fst (Step (ExpiresAtHeight 1) (BlockDuration Int64.max_int)))
     <> Height (ExpiresAtHeight 1) + Block (BlockDuration Int64.max_int).
Proof.
  repeat apply conj; try reflexivity; vm_compute; try discriminate;
    repeat apply conj; discriminate.
Qed.

(** Where the sum leaves the representable instants the time stops short:
    from five seconds before the last second, a step of ten seconds
    advances the time by five. *)
Lemma Step_time_stops_at_the_last_second :
  Step (ExpiresAtTime (time.at_sec_nsec (Int64.max_int - 5) 0))
    (ClockDuration (10 * time.Second))
  = (ExpiresAtTime (time.at_sec_nsec Int64.max_int 0), None).
Proof. reflexivity. Qed.

(** ** Re-anchoring a point *)

Section Anchoring.

Variables (e : ExpiresAt) (t : time.Time) (h : Z).

(** C8, as amended. On a point whose time is set, [FastForward e t h] with
    [t] not the zero instant is the time-point at exactly [t], with height
    zero; on a step-point, with [h] not 0, it is the step-point at exactly
    [h], with time zero. *)
Theorem FastForward_keeps_unit :
  (time_set e -> time.IsZero t = false ->
   FastForward e t h = ExpiresAtTime t
   /\ time_point (FastForward e t h)
   /\ Time (FastForward e t h) = t
   /\ Height (FastForward e t h) = 0)
  /\ (step_point e -> h <> 0 ->
      FastForward e t h = ExpiresAtHeight h
      /\ step_point (FastForward e t h)
      /\ Height (FastForward e t h) = h
      /\ time.IsZero (Time (FastForward e t h)) = true).
Proof.
  unfold time_set, time_point, step_point, FastForward. split.
  - intros -> Ht. cbn. repeat split. exact Ht.
  - intros [-> _] Hh. cbn. repeat split. exact Hh.
Qed.

(** The point by height at 0 and the point by time at the zero instant are
    the unset value: these are the only re-anchored points that are unset. *)
Lemma FastForward_IsZero :
  IsZero (FastForward e t h)
  = if time.IsZero (Time e) then h =? 0 else time.IsZero t.
Proof.
  unfold FastForward, IsZero.
  destruct (time.IsZero (Time e)); cbn; [reflexivity | apply andb_true_r].
Qed.

End Anchoring.

Lemma FastForward_keeps_unit_witness :
  (FastForward (ExpiresAtTime 1000) 2000 42 = ExpiresAtTime 2000
   /\ time_point (FastForward (ExpiresAtTime 1000) 2000 42)
   /\ Time (FastForward (ExpiresAtTime 1000) 2000 42) = 2000
   /\ Height (FastForward (ExpiresAtTime 1000) 2000 42) = 0)
  /\ (FastForward (ExpiresAtHeight 100) 2000 42 = ExpiresAtHeight 42
      /\ step_point (FastForward (ExpiresAtHeight 100) 2000 42)
      /\ Height (FastForward (ExpiresAtHeight 100) 2000 42) = 42
      /\ time.IsZero (Time (FastForward (ExpiresAtHeight 100) 2000 42)) = true).
Proof.
  split.
  - apply (proj1 (FastForward_keeps_unit (ExpiresAtTime 1000) 2000 42)).
    + reflexivity.
    + reflexivity.
  - apply (proj2 (FastForward_keeps_unit (ExpiresAtHeight 100) 2000 42)).
    + split; [reflexivity | discriminate].
    + discriminate.
Defined.

(** C8 as stated fails at reference step 0 and at the zero instant: the
    step-point at height 100 re-anchored at step 0, and the time-point at
    1000 re-anchored at the zero instant, are the zero value, which is
    neither a step-point nor a time-point. *)
Lemma FastForward_onto_zero_unsets :
  step_point (ExpiresAtHeight 100)
  /\ FastForward (ExpiresAtHeight 100) 2000 0 = ExpiresAt_zero
  /\ ~ step_point (FastForward (ExpiresAtHeight 100) 2000 0)
  /\ time_point (ExpiresAtTime 1000)
  /\ FastForward (ExpiresAtTime 1000) time.zero 42 = ExpiresAt_zero
  /\ ~ time_set (FastForward (ExpiresAtTime 1000) time.zero 42).
Proof.
  repeat apply conj; try reflexivity.
  - discriminate.
  - intros [_ Hnz]. apply Hnz. reflexivity.
  - intros Hset. discriminate Hset.
Qed.

(** ** The unset value *)

(** C10, as amended. Every operation that dispatches on the unit treats the
    unset value as a point by height: [IsCompatible] is true exactly when the
    step count is positive; [FastForward] returns the point by height at
    [h], which is a step-point, and not unset, when [h] is not 0; and
    [Step] by a positive step count succeeds and returns the step-point whose
    height is that count. *)
Theorem unset_dispatches_by_height
    (e : ExpiresAt) (d : Duration) (t : time.Time) (h : Z) :
  IsZero e = true ->
  (IsCompatible e d = true <-> 0 < Block d)
  /\ FastForward e t h = ExpiresAtHeight h
  /\ (h <> 0 ->
      step_point (FastForward e t h) /\ IsZero (FastForward e t h) = false)
  /\ (0 < Block d -> Int64.in_range (Block d) ->
      Step e d = (ExpiresAtHeight (Block d), None)
      /\ step_point (fst (Step e d))).
Proof.
  destruct e as [tm hg], d as [ck bk]. unfold IsZero. cbn [Time Height].
  intros Hunset. apply andb_true_iff in Hunset as [Htm Hhg].
  apply Z.eqb_eq in Hhg. subst hg.
  assert (Hc : 0 < bk ->
               IsCompatible {| Time := tm; Height := 0 |}
                 {| Clock := ck; Block := bk |} = true).
  { unfold IsCompatible. cbn [Time Block]. rewrite Htm. cbn [negb].
    intros Hpos. rewrite Z.gtb_ltb. now apply Z.ltb_lt. }
  split; [|split; [|split]].
  - unfold IsCompatible. cbn [Time Block]. rewrite Htm. cbn [negb].
    rewrite Z.gtb_ltb. apply Z.ltb_lt.
  - unfold FastForward. cbn [Time]. now rewrite Htm.
  - intros Hh. unfold FastForward, step_point, IsZero. cbn [Time].
    rewrite Htm. cbn. repeat split; [assumption | now apply Z.eqb_neq].
  - intros Hpos Hrange. rewrite (Step_compatible _ _ (Hc Hpos)).
    cbn [Time Height Clock Block fst] in *. rewrite Htm. cbn [negb fst].
    rewrite (Int64Facts.add_0_l _ Hrange).
    apply timeFacts.IsZero_true in Htm. subst tm.
    unfold step_point, ExpiresAtHeight. cbn [Time Height].
    repeat split. lia.
Qed.

Lemma unset_dispatches_by_height_witness :
  Step ExpiresAt_zero (BlockDuration 30) = (ExpiresAtHeight 30, None)
  /\ step_point (fst (Step ExpiresAt_zero (BlockDuration 30))).
Proof.
  apply (proj2 (proj2 (proj2
           (unset_dispatches_by_height ExpiresAt_zero (BlockDuration 30)
              1000 42 eq_refl)))).
  - cbn. lia.
  - vm_compute. split; discriminate.
Defined.

(** C10 as stated fails at reference step 0: re-anchoring the unset value
    there returns the unset value again, which is no step-point. *)
Lemma FastForward_unset_at_step_0 :
  IsZero ExpiresAt_zero = true
  /\ FastForward ExpiresAt_zero 1000 0 = ExpiresAt_zero
  /\ IsZero (FastForward ExpiresAt_zero 1000 0) = true
  /\ ~ step_point (FastForward ExpiresAt_zero 1000 0).
Proof.
  repeat apply conj; try reflexivity.
  intros [_ Hnz]. apply Hnz. reflexivity.
Qed.

(** ** Export across a height reset *)

Section Exporting.

Variables (e : ExpiresAt) (dumpTime : time.Time) (dumpHeight : Z).


(** In every case the height is the int64 difference and the time is kept. *)
Lemma PrepareForExport_fields :
  Time (PrepareForExport e dumpTime dumpHeight) = Time e
  /\ Height (PrepareForExport e dumpTime dumpHeight)
     = if Height e =? 0 then 0 else Int64.sub (Height e) dumpHeight.
Proof.
  unfold PrepareForExport. destruct (Z.eqb_spec (Height e) 0) as [Hz | Hnz];
    cbn [negb Time Height]; split; auto.
Qed.

End Exporting.



(** Where the difference leaves int64 the height wraps around: at the
    largest height and dump height -1 the height of the result is the least
    int64. *)
Lemma PrepareForExport_height_wraps_around :
  step_point (ExpiresAtHeight Int64.max_int)
  /\ ExpiresAt_typed (ExpiresAtHeight Int64.max_int)
  /\ Int64.in_range (-1)
  /\ PrepareForExport (ExpiresAtHeight Int64.max_int) 1000 (-1)
     = ExpiresAtHeight Int64.min_int
  /\ Height (PrepareForExport (ExpiresAtHeight Int64.max_int) 1000 (-1))
     <> Height (ExpiresAtHeight Int64.max_int) - (-1).
Proof.
  repeat apply conj; try reflexivity; vm_compute; try discriminate;
    repeat apply conj; discriminate.
Qed.

(** ** The invariants of the data model *)

Section Invariants.

Variable e : ExpiresAt.
Hypothesis Hinv : invariants e.
Hypothesis Htyped : ExpiresAt_typed e.

Lemma Step_invariants (d : Duration) :
  Height e + Block d <= Int64.max_int -> invariants (fst (Step e d)).
Proof.
  intros Hsum. destruct (IsCompatible e d) eqn:Hc.
  - rewrite (Step_compatible _ _ Hc). cbn [fst].
    destruct Hinv as [Hone Hpos]. unfold height_nonneg in Hpos.
    destruct (time.IsZero (Time e)) eqn:Hz; cbn [negb].
    + unfold IsCompatible in Hc. rewrite Hz in Hc. cbn [negb] in Hc.
      rewrite Z.gtb_ltb in Hc. apply Z.ltb_lt in Hc.
      assert (Hrange : Int64.in_range (Height e + Block d))
        by (unfold Int64.in_range, Int64.min_int in *; lia).
      rewrite (Int64Facts.add_exact _ _ Hrange).
      split; [left; exact Hz | unfold height_nonneg; cbn [Height]; lia].
    + destruct Hone as [Habs | Hzero]; [congruence|].
      split; [right; exact Hzero | exact Hpos].
  - rewrite (Step_incompatible _ _ Hc). cbn [fst].
    split; [left; reflexivity | unfold height_nonneg; cbn; lia].
Qed.

Lemma FastForward_invariants (t : time.Time) (h : Z) :
  0 <= h -> invariants (FastForward e t h).
Proof.
  intros Hh. unfold FastForward.
  destruct (negb (time.IsZero (Time e))).
  - split; [right; reflexivity | unfold height_nonneg; cbn; lia].
  - split; [left; reflexivity | exact Hh].
Qed.

Lemma PrepareForExport_invariants (dumpTime : time.Time) (dumpHeight : Z) :
  0 <= dumpHeight -> dumpHeight <= Height e \/ Height e = 0 ->
  invariants (PrepareForExport e dumpTime dumpHeight).
Proof.
  intros Hdump Hle. unfold PrepareForExport.
  destruct (Z.eqb_spec (Height e) 0) as [Hz | Hnz]; cbn [negb];
    [exact Hinv|].
  destruct Hinv as [Hone Hpos]. unfold height_nonneg in Hpos.
  destruct Hle as [Hle | Habs]; [|contradiction].
  assert (Hrange : Int64.in_range (Height e - dumpHeight))
    by (unfold ExpiresAt_typed, Int64.in_range, Int64.min_int in *; lia).
  rewrite (Int64Facts.sub_exact _ _ Hrange).
  split.
  - destruct Hone as [Hzero | Habs]; [left; exact Hzero | contradiction].
  - unfold height_nonneg. cbn [Height]. lia.
Qed.

End Invariants.

(** C1, as amended. From a value that meets both invariants (at most one
    field non-zero, height not negative), these return a value that meets
    them again: [Step] with a Duration that passes [ValidateBasic] and does
    not carry the height past the largest int64; [FastForward] with any
    reference time and any reference step [>= 0]; and [PrepareForExport]
    with any dump time and a dump step from 0 up to the height of the point
    (any dump step [>= 0] when that height is 0). *)
Theorem operations_preserve_invariants
    (e : ExpiresAt) (d : Duration) (t dumpTime : time.Time) (h dumpHeight : Z) :
  invariants e -> ExpiresAt_typed e ->
  (Duration_ValidateBasic d = None ->
   Height e + Block d <= Int64.max_int ->
   invariants (fst (Step e d)))
  /\ (0 <= h -> invariants (FastForward e t h))
  /\ (0 <= dumpHeight -> dumpHeight <= Height e \/ Height e = 0 ->
      invariants (PrepareForExport e dumpTime dumpHeight)).
Proof.
  intros Hinv Htyped. split; [|split].
  - intros _. now apply Step_invariants.
  - now apply FastForward_invariants.
  - now apply PrepareForExport_invariants.
Qed.

Lemma operations_preserve_invariants_witness :
  invariants (fst (Step (ExpiresAtHeight 100) (BlockDuration 30)))
  /\ invariants (FastForward (ExpiresAtHeight 100) 1000 42)
  /\ invariants (PrepareForExport (ExpiresAtHeight 100) 1000 30).
Proof.
  assert (Hinv : invariants (ExpiresAtHeight 100))
    by (split; [left; reflexivity | unfold height_nonneg; cbn; lia]).
  assert (Htyped : ExpiresAt_typed (ExpiresAtHeight 100))
    by (vm_compute; split; discriminate).
  destruct (operations_preserve_invariants (ExpiresAtHeight 100)
              (BlockDuration 30) 1000 1000 42 30 Hinv Htyped)
    as [HStep [HFast HExport]].
  split; [|split].
  - apply HStep; [reflexivity | vm_compute; discriminate].
  - apply HFast. lia.
  - apply HExport; [lia | left; cbn; lia].
Defined.

(** C1 as stated fails for [PrepareForExport]: the step-point at height 30
    meets both invariants, and exporting it at dump step 100 returns the
    point of height -70, which does not. *)
Lemma PrepareForExport_past_the_height :
  invariants (ExpiresAtHeight 30)
  /\ ExpiresAt_typed (ExpiresAtHeight 30)
  /\ 0 <= 100
  /\ PrepareForExport (ExpiresAtHeight 30) 1000 100 = ExpiresAtHeight (-70)
  /\ ExpiresAt_ValidateBasic (PrepareForExport (ExpiresAtHeight 30) 1000 100)
     = Some (ErrInvalidDuration "negative height")
  /\ ~ invariants (PrepareForExport (ExpiresAtHeight 30) 1000 100).
Proof.
  repeat apply conj; try reflexivity.
  - left. reflexivity.
  - unfold height_nonneg. cbn. lia.
  - vm_compute. discriminate.
  - vm_compute. discriminate.
  - lia.
  - intros [_ Hneg]. vm_compute in Hneg. apply Hneg. reflexivity.
Qed.

(** A step-point exported exactly at its own height becomes the unset
    value. *)
Lemma PrepareForExport_at_own_height :
  PrepareForExport (ExpiresAtHeight 30) 1000 30 = ExpiresAt_zero.
Proof. reflexivity. Qed.

(** * Further properties of the code *)

(** ** More int64 arithmetic *)

Module Int64Arith.

(** Reducing an intermediate sum changes nothing: int64 addition and
    subtraction are those of the integers modulo 2^64. *)
Lemma wrap_add_wrap_l (a b : Z) :
  Int64.wrap (Int64.wrap a + b) = Int64.wrap (a + b).
Proof.
  unfold Int64.wrap.
  replace ((a + 2 ^ 63) mod 2 ^ 64 - 2 ^ 63 + b + 2 ^ 63)
    with ((a + 2 ^ 63) mod 2 ^ 64 + b) by lia.
  rewrite Zplus_mod_idemp_l.
  replace (a + 2 ^ 63 + b) with (a + b + 2 ^ 63) by lia.
  reflexivity.
Qed.

Lemma add_add_swap (a b c : Z) :
  Int64.add (Int64.add a b) c = Int64.add (Int64.add a c) b.
Proof.
  unfold Int64.add. rewrite !wrap_add_wrap_l. f_equal. lia.
Qed.

Lemma sub_diag (a : Z) : Int64.sub a a = 0.
Proof. unfold Int64.sub. rewrite Z.sub_diag. reflexivity. Qed.

End Int64Arith.

(** ** Expiry over time *)

(** X1. Expiry is monotone: a point expired at time [t] and height [h] is
    expired at every later time and greater height. *)
Theorem IsExpired_monotone (e : ExpiresAt) (t t' : time.Time) (h h' : Z) :
  t <= t' -> h <= h' ->
  IsExpired e t h = true -> IsExpired e t' h' = true.
Proof.
  destruct e as [tm hg]. intros Ht Hh. settle.
Qed.

Lemma IsExpired_monotone_witness :
  IsExpired (ExpiresAtHeight 100) 2000 150 = true.
Proof.
  apply (IsExpired_monotone (ExpiresAtHeight 100) 1000 2000 100 150).
  - lia.
  - lia.
  - reflexivity.
Defined.

(** X2. The values that are never expired, at any time and height, are
    exactly those for which [IsZero] holds. *)
Theorem never_expired_iff_IsZero (e : ExpiresAt) :
  (forall (t : time.Time) (h : Z), IsExpired e t h = false)
  <-> IsZero e = true.
Proof.
  destruct e as [tm hg]. split.
  - intros Hnever. pose proof (Hnever tm hg) as Hown. revert Hown. settle.
  - intros Hzero t h. revert Hzero. settle.
Qed.

(** X3. Expiry reads one unit only: on a value that meets the invariants
    and has its time set, the height passed in is ignored; on every value
    whose time is zero, the time passed in is ignored. *)
Theorem IsExpired_reads_one_unit
    (e : ExpiresAt) (t t' : time.Time) (h h' : Z) :
  (invariants e -> time_set e -> IsExpired e t h = IsExpired e t h')
  /\ (time.IsZero (Time e) = true -> IsExpired e t h = IsExpired e t' h).
Proof.
  destruct e as [tm hg]. split.
  - intros [Hone Hpos] Hset. revert Hone Hset. settle.
  - settle.
Qed.

Lemma IsExpired_reads_one_unit_witness :
  IsExpired (ExpiresAtTime 1000) 999 5 = IsExpired (ExpiresAtTime 1000) 999 7
  /\ IsExpired (ExpiresAtHeight (-5)) 999 7
     = IsExpired (ExpiresAtHeight (-5)) 2000 7.
Proof.
  split.
  - apply (proj1 (IsExpired_reads_one_unit (ExpiresAtTime 1000) 999 0 5 7)).
    + split; [right; reflexivity | unfold height_nonneg; cbn; lia].
    + reflexivity.
  - apply (proj2 (IsExpired_reads_one_unit (ExpiresAtHeight (-5))
                    999 2000 7 0)).
    reflexivity.
Defined.

(** ** Stepping and expiry *)

(** X4. A successful [Step] of a value that is not unset only postpones
    expiry: wherever the stepped point is expired, the original one is too.
    This holds within the range of the unit: for a point by height when the
    new height is an int64, for a point by time when the time plus the
    clock span is a representable instant. *)
Theorem Step_postpones_expiry
    (e : ExpiresAt) (d : Duration) (t : time.Time) (h : Z) :
  IsCompatible e d = true ->
  IsZero e = false ->
  (time.IsZero (Time e) = true -> Int64.in_range (Height e + Block d)) ->
  (time_set e -> time.representable (Time e + Clock d)) ->
  IsExpired (fst (Step e d)) t h = true -> IsExpired e t h = true.
Proof.
  intros Hc Hnz Hsum Hrep. rewrite (Step_compatible _ _ Hc). cbn [fst].
  unfold time_set in Hrep.
  destruct (time.IsZero (Time e)) eqn:Hz; cbn [negb].
  - rewrite (Int64Facts.add_exact _ _ (Hsum eq_refl)).
    unfold IsCompatible in Hc. rewrite Hz in Hc. cbn [negb] in Hc.
    unfold IsZero in Hnz. rewrite Hz in Hnz. cbn [andb] in Hnz.
    unfold IsExpired. cbn [Time Height]. rewrite Hz. cbn [negb andb].
    revert Hc Hnz. clear. destruct e as [tm hg], d as [ck bk].
    cbn [Time Height Clock Block]. decide_tests; finish.
  - rewrite (timeArith.Add_exact _ _ (Hrep eq_refl)).
    unfold IsCompatible in Hc. rewrite Hz in Hc. cbn [negb] in Hc.
    revert Hc Hz. clear. destruct e as [tm hg], d as [ck bk]. settle.
Qed.

Lemma Step_postpones_expiry_witness :
  IsExpired (ExpiresAtHeight 100) 1000 130 = true
  /\ IsExpired (ExpiresAtTime 1000) 1060 0 = true.
Proof.
  split.
  - apply (Step_postpones_expiry (ExpiresAtHeight 100) (BlockDuration 30)
             1000 130).
    + reflexivity.
    + reflexivity.
    + intros _. vm_compute. split; discriminate.
    + intros Habs. discriminate Habs.
    + reflexivity.
  - apply (Step_postpones_expiry (ExpiresAtTime 1000) (ClockDuration 60)
             1060 0).
    + reflexivity.
    + reflexivity.
    + intros Habs. discriminate Habs.
    + intros _. vm_compute. split; discriminate.
    + reflexivity.
Defined.

(** X5. A successful [Step] really extends a point with at most one field
    set: at its own time and height the original is expired and the stepped
    point is not.  This holds within the range of the unit, as for X4. *)
Theorem Step_extends_past_boundary (e : ExpiresAt) (d : Duration) :
  IsCompatible e d = true ->
  at_most_one_set e ->
  IsZero e = false ->
  (time.IsZero (Time e) = true -> Int64.in_range (Height e + Block d)) ->
  (time_set e -> time.representable (Time e + Clock d)) ->
  IsExpired e (Time e) (Height e) = true
  /\ IsExpired (fst (Step e d)) (Time e) (Height e) = false.
Proof.
  intros Hc Hone Hnz Hsum Hrep. rewrite (Step_compatible _ _ Hc). cbn [fst].
  unfold time_set in Hrep.
  destruct (time.IsZero (Time e)) eqn:Hz; cbn [negb].
  - rewrite (Int64Facts.add_exact _ _ (Hsum eq_refl)).
    unfold IsCompatible in Hc. rewrite Hz in Hc. cbn [negb] in Hc.
    unfold IsZero in Hnz. rewrite Hz in Hnz. cbn [andb] in Hnz.
    unfold IsExpired. cbn [Time Height]. rewrite Hz. cbn [negb andb].
    revert Hc Hnz. clear. destruct e as [tm hg], d as [ck bk].
    cbn [Time Height Clock Block]. decide_tests; split; finish.
  - rewrite (timeArith.Add_exact _ _ (Hrep eq_refl)).
    unfold IsCompatible in Hc. rewrite Hz in Hc. cbn [negb] in Hc.
    destruct Hone as [Habs | Hzero]; [congruence|].
    revert Hc Hz Hzero. clear. destruct e as [tm hg], d as [ck bk].
    methods. intros Hc Hz Hzero. subst hg. decide_tests; split; finish.
Qed.

Lemma Step_extends_past_boundary_witness :
  IsExpired (ExpiresAtTime 1000) 1000 0 = true
  /\ IsExpired (fst (Step (ExpiresAtTime 1000) (ClockDuration 60))) 1000 0
     = false.
Proof.
  apply (Step_extends_past_boundary (ExpiresAtTime 1000) (ClockDuration 60)).
  - reflexivity.
  - right. reflexivity.
  - reflexivity.
  - intros Habs. discriminate Habs.
  - intros _. vm_compute. split; discriminate.
Defined.

(** X6. Stepping can be repeated: after a successful [Step] the same
    Duration is still compatible with the result, so [MustStep] of the
    result does not panic; for a point by time this needs the new time not
    to be the zero instant. *)
Theorem Step_keeps_compatibility (e : ExpiresAt) (d : Duration) :
  IsCompatible e d = true ->
  (time_set e -> time.Add (Time e) (Clock d) <> time.zero) ->
  IsCompatible (fst (Step e d)) d = true
  /\ MustStep (fst (Step e d)) d
     = Returns (fst (Step (fst (Step e d)) d)).
Proof.
  intros Hc Hnew.
  assert (Hc' : IsCompatible (fst (Step e d)) d = true).
  { rewrite (Step_compatible _ _ Hc). cbn [fst].
    unfold IsCompatible in *. unfold time_set in Hnew.
    destruct (time.IsZero (Time e)) eqn:Hz; cbn [negb Time] in *.
    - rewrite Hz. exact Hc.
    - apply timeFacts.IsZero_false in Hnew; [|reflexivity].
      rewrite Hnew. exact Hc. }
  split; [exact Hc'|].
  unfold MustStep. now rewrite (Step_compatible _ _ Hc').
Qed.

Lemma Step_keeps_compatibility_witness :
  IsCompatible (fst (Step (ExpiresAtTime 1000) (ClockDuration 60)))
    (ClockDuration 60) = true
  /\ MustStep (fst (Step (ExpiresAtTime 1000) (ClockDuration 60)))
       (ClockDuration 60)
     = Returns (fst (Step (fst (Step (ExpiresAtTime 1000) (ClockDuration 60)))
                       (ClockDuration 60))).
Proof.
  apply (Step_keeps_compatibility (ExpiresAtTime 1000) (ClockDuration 60)).
  - reflexivity.
  - intros _. vm_compute. discriminate.
Defined.

(** X7. Two successful steps commute: stepping by [d1] and then by [d2]
    gives the same result, without error, as stepping by [d2] and then by
    [d1], int64 wrap-around and the stop at the last representable second
    included; for a point by time (a representable instant, stepped by
    int64 clock spans) this needs neither intermediate time to be the zero
    instant. *)
Theorem Step_commutes (e : ExpiresAt) (d1 d2 : Duration) :
  IsCompatible e d1 = true ->
  IsCompatible e d2 = true ->
  (time_set e ->
   time.representable (Time e)
   /\ Int64.in_range (Clock d1) /\ Int64.in_range (Clock d2)) ->
  (time_set e ->
   time.Add (Time e) (Clock d1) <> time.zero
   /\ time.Add (Time e) (Clock d2) <> time.zero) ->
  Step (fst (Step e d1)) d2 = Step (fst (Step e d2)) d1
  /\ snd (Step (fst (Step e d1)) d2) = None.
Proof.
  intros Hc1 Hc2 Htyped Hmid.
  rewrite (Step_compatible _ _ Hc1), (Step_compatible _ _ Hc2). cbn [fst].
  unfold IsCompatible in Hc1, Hc2. unfold time_set in Hmid, Htyped.
  destruct (time.IsZero (Time e)) eqn:Hz; cbn [negb] in *.
  - assert (Hk : forall hg p, (Block p >? 0) = true ->
               IsCompatible {| Time := Time e; Height := hg |} p = true).
    { intros hg p Hp. unfold IsCompatible. cbn [Time]. now rewrite Hz. }
    rewrite (Step_compatible _ _ (Hk _ _ Hc2)),
            (Step_compatible _ _ (Hk _ _ Hc1)).
    cbn [Time Height snd]. rewrite Hz. cbn [negb].
    rewrite Int64Arith.add_add_swap. split; reflexivity.
  - destruct (Hmid eq_refl) as [Hm1 Hm2].
    destruct (Htyped eq_refl) as [Hrep [Hr1 Hr2]].
    apply timeFacts.IsZero_false in Hm1, Hm2.
    assert (Hk : forall tm hg p, time.IsZero tm = false ->
               (Clock p >? 0) = true ->
               IsCompatible {| Time := tm; Height := hg |} p = true).
    { intros tm hg p Htm Hp. unfold IsCompatible. cbn [Time]. now rewrite Htm. }
    rewrite (Step_compatible _ _ (Hk _ _ _ Hm1 Hc2)),
            (Step_compatible _ _ (Hk _ _ _ Hm2 Hc1)).
    cbn [Time Height snd]. rewrite Hm1, Hm2. cbn [negb].
    rewrite Z.gtb_ltb in Hc1, Hc2. apply Z.ltb_lt in Hc1, Hc2.
    rewrite (timeArith.Add_Add_swap _ _ _ Hrep Hr1 Hc1 Hr2 Hc2).
    split; reflexivity.
Qed.

Lemma Step_commutes_witness :
  (Step (fst (Step (ExpiresAtHeight 100) (BlockDuration 30))) (BlockDuration 7)
   = Step (fst (Step (ExpiresAtHeight 100) (BlockDuration 7)))
       (BlockDuration 30)
   /\ snd (Step (fst (Step (ExpiresAtHeight 100) (BlockDuration 30)))
             (BlockDuration 7)) = None)
  /\ (Step (fst (Step (ExpiresAtTime 1000) (ClockDuration 60)))
        (ClockDuration 7)
      = Step (fst (Step (ExpiresAtTime 1000) (ClockDuration 7)))
          (ClockDuration 60)
      /\ snd (Step (fst (Step (ExpiresAtTime 1000) (ClockDuration 60)))
                (ClockDuration 7)) = None).
Proof.
  split.
  - apply (Step_commutes (ExpiresAtHeight 100) (BlockDuration 30)
             (BlockDuration 7)).
    + reflexivity.
    + reflexivity.
    + intros Habs. discriminate Habs.
    + intros Habs. discriminate Habs.
  - apply (Step_commutes (ExpiresAtTime 1000) (ClockDuration 60)
             (ClockDuration 7)).
    + reflexivity.
    + reflexivity.
    + intros _. vm_compute. repeat split; discriminate.
    + intros _. vm_compute. split; discriminate.
Defined.

(** X8. What a failed [Step] returns beside the error is the zero value: it
    passes [ValidateBasic] and is never expired. *)
Theorem Step_failure_returns_unset (e : ExpiresAt) (d : Duration) :
  IsCompatible e d = false ->
  fst (Step e d) = ExpiresAt_zero
  /\ IsZero (fst (Step e d)) = true
  /\ ExpiresAt_ValidateBasic (fst (Step e d)) = None
  /\ (forall (t : time.Time) (h : Z), IsExpired (fst (Step e d)) t h = false).
Proof.
  intros Hc. rewrite (Step_incompatible _ _ Hc). cbn [fst].
  repeat split.
Qed.

Lemma Step_failure_returns_unset_witness :
  fst (Step (ExpiresAtTime 1000) (BlockDuration 30)) = ExpiresAt_zero
  /\ IsZero (fst (Step (ExpiresAtTime 1000) (BlockDuration 30))) = true
  /\ ExpiresAt_ValidateBasic (fst (Step (ExpiresAtTime 1000) (BlockDuration 30)))
     = None
  /\ (forall (t : time.Time) (h : Z),
        IsExpired (fst (Step (ExpiresAtTime 1000) (BlockDuration 30))) t h
        = false).
Proof.
  apply (Step_failure_returns_unset (ExpiresAtTime 1000) (BlockDuration 30)).
  reflexivity.
Defined.

(** ** Re-anchoring, export and the unit of a point *)

(** X9. A point re-anchored at [t] and [h] is expired at [t] and [h], unless
    the result is the unset value (time set and [t] the zero instant, or
    time zero and [h = 0]). *)
Theorem FastForward_expired_at_anchor
    (e : ExpiresAt) (t : time.Time) (h : Z) :
  IsExpired (FastForward e t h) t h = negb (IsZero (FastForward e t h))
  /\ (IsExpired (FastForward e t h) t h = true
      <-> (time_set e /\ t <> time.zero)
          \/ (time.IsZero (Time e) = true /\ h <> 0)).
Proof.
  destruct e as [tm hg]. split.
  - methods. destruct (Z.eqb_spec tm 0); cbn [negb Time Height];
      decide_tests; finish.
  - methods. destruct (Z.eqb_spec tm 0); cbn [negb Time Height];
      decide_tests; finish.
Qed.

(** X10. [FastForward] returns a value that passes [ValidateBasic] whenever
    the time of its receiver is set, even if the receiver itself does not
    pass; otherwise exactly when [h] is not negative. *)
Theorem FastForward_ValidateBasic (e : ExpiresAt) (t : time.Time) (h : Z) :
  ExpiresAt_ValidateBasic (FastForward e t h) = None
  <-> time_set e \/ 0 <= h.
Proof.
  destruct e as [tm hg]. methods.
  destruct (Z.eqb_spec tm 0); cbn [negb Time Height]; decide_tests; finish.
Qed.

(** X11. Re-anchoring and export keep the unit of a point: the Durations
    compatible with the result are those compatible with the receiver, for
    [PrepareForExport] always and for [FastForward] as long as a point whose
    time is set is not anchored at the zero instant. *)
Theorem unit_kept_by_FastForward_and_PrepareForExport
    (e : ExpiresAt) (d : Duration) (t dumpTime : time.Time)
    (h dumpHeight : Z) :
  ((time_set e -> time.IsZero t = false) ->
   IsCompatible (FastForward e t h) d = IsCompatible e d)
  /\ IsCompatible (PrepareForExport e dumpTime dumpHeight) d
     = IsCompatible e d.
Proof.
  split.
  - intros Hanchor. unfold time_set in Hanchor.
    unfold FastForward, IsCompatible.
    destruct (time.IsZero (Time e)) eqn:Hz; cbn [negb ExpiresAtTime
      ExpiresAtHeight Time].
    + reflexivity.
    + now rewrite (Hanchor eq_refl).
  - unfold PrepareForExport, IsCompatible.
    destruct (negb (Height e =? 0)); reflexivity.
Qed.

Lemma unit_kept_by_FastForward_and_PrepareForExport_witness :
  IsCompatible (FastForward (ExpiresAtTime 1000) 2000 42) (ClockDuration 60)
  = IsCompatible (ExpiresAtTime 1000) (ClockDuration 60).
Proof.
  apply (proj1 (unit_kept_by_FastForward_and_PrepareForExport
                  (ExpiresAtTime 1000) (ClockDuration 60) 2000 0 42 0)).
  intros _. reflexivity.
Defined.

(** X12. Export keeps the number of blocks left: when the height of the
    point differs from the dump height (and their difference is an int64),
    the exported point is expired at height [h] of the restarted chain
    exactly when the original is expired at height [h + dumpHeight], at
    every time. *)
Theorem PrepareForExport_keeps_blocks_left
    (e : ExpiresAt) (dumpTime t : time.Time) (dumpHeight h : Z) :
  Int64.in_range (Height e - dumpHeight) ->
  Height e <> dumpHeight ->
  IsExpired (PrepareForExport e dumpTime dumpHeight) t h
  = IsExpired e t (h + dumpHeight).
Proof.
  intros Hdiff Hne. unfold PrepareForExport.
  destruct (Z.eqb_spec (Height e) 0) as [Hz | Hnz]; cbn [negb].
  - unfold IsExpired. rewrite Hz. reflexivity.
  - rewrite (Int64Facts.sub_exact _ _ Hdiff).
    revert Hne Hnz. clear. destruct e as [tm hg]. settle.
Qed.

Lemma PrepareForExport_keeps_blocks_left_witness :
  IsExpired (PrepareForExport (ExpiresAtHeight 100) 1000 30) 2000 70
  = IsExpired (ExpiresAtHeight 100) 2000 (70 + 30).
Proof.
  apply (PrepareForExport_keeps_blocks_left (ExpiresAtHeight 100) 1000 2000
           30 70).
  - vm_compute. split; discriminate.
  - cbn. discriminate.
Defined.

(** X13. A step-point exported at exactly its own height becomes the zero
    value: it was expired from that height on, and is never expired
    afterwards. *)
Theorem PrepareForExport_at_the_height_unsets
    (e : ExpiresAt) (dumpTime : time.Time) :
  step_point e ->
  PrepareForExport e dumpTime (Height e) = ExpiresAt_zero
  /\ (forall t : time.Time, IsExpired e t (Height e) = true)
  /\ (forall (t : time.Time) (h : Z),
        IsExpired (PrepareForExport e dumpTime (Height e)) t h = false).
Proof.
  intros [Hz Hnz]. unfold PrepareForExport.
  apply Z.eqb_neq in Hnz. rewrite Hnz. cbn [negb].
  rewrite Int64Arith.sub_diag.
  apply timeFacts.IsZero_true in Hz. rewrite Hz.
  split; [reflexivity|]. split.
  - intros t. unfold IsExpired. rewrite Hz, Hnz. cbn.
    rewrite Z.geb_leb. apply Z.leb_refl.
  - intros t h. reflexivity.
Qed.

Lemma PrepareForExport_at_the_height_unsets_witness :
  PrepareForExport (ExpiresAtHeight 100) 1000 (Height (ExpiresAtHeight 100))
  = ExpiresAt_zero
  /\ (forall t : time.Time,
        IsExpired (ExpiresAtHeight 100) t (Height (ExpiresAtHeight 100)) = true)
  /\ (forall (t : time.Time) (h : Z),
        IsExpired (PrepareForExport (ExpiresAtHeight 100) 1000
                     (Height (ExpiresAtHeight 100))) t h = false).
Proof.
  apply (PrepareForExport_at_the_height_unsets (ExpiresAtHeight 100) 1000).
  split; [reflexivity | discriminate].
Defined.

(** X14. For a valid step-point and a dump height that is not negative, the
    exported point passes [ValidateBasic] exactly when the dump height does
    not exceed the height of the point. *)
Theorem PrepareForExport_ValidateBasic
    (e : ExpiresAt) (dumpTime : time.Time) (dumpHeight : Z) :
  ExpiresAt_ValidateBasic e = None ->
  ExpiresAt_typed e ->
  Int64.in_range dumpHeight ->
  0 < Height e ->
  0 <= dumpHeight ->
  (ExpiresAt_ValidateBasic (PrepareForExport e dumpTime dumpHeight) = None
   <-> dumpHeight <= Height e).
Proof.
  intros Hvalid Htyped Hdump Hpos Hnonneg.
  pose proof (Int64Facts.sub_of_heights_in_range _ _ Htyped Hdump Hpos Hnonneg)
    as Hdiff.
  unfold PrepareForExport.
  destruct (Z.eqb_spec (Height e) 0) as [Hz | Hnz]; [lia|]. cbn [negb].
  rewrite (Int64Facts.sub_exact _ _ Hdiff).
  revert Hvalid Hpos Hnonneg. clear. destruct e as [tm hg]. settle.
Qed.

Lemma PrepareForExport_ValidateBasic_witness :
  ExpiresAt_ValidateBasic (PrepareForExport (ExpiresAtHeight 100) 1000 30) = None
  <-> 30 <= Height (ExpiresAtHeight 100).
Proof.
  apply (PrepareForExport_ValidateBasic (ExpiresAtHeight 100) 1000 30).
  - reflexivity.
  - vm_compute. split; discriminate.
  - vm_compute. split; discriminate.
  - cbn. lia.
  - lia.
Defined.

(** ** Durations and units *)

(** X15. The constructors give valid Durations exactly from positive
    amounts: [ClockDuration d] and [BlockDuration h] pass [ValidateBasic] if
    and only if [d], respectively [h], is positive. *)
Theorem Duration_constructors_ValidateBasic (c : time.Duration) (b : Z) :
  (Duration_ValidateBasic (ClockDuration c) = None <-> 0 < c)
  /\ (Duration_ValidateBasic (BlockDuration b) = None <-> 0 < b).
Proof.
  split; settle.
Qed.

(** X16. A Duration that passes [ValidateBasic] has one unit: it is
    compatible with the points whose time is set or with those whose time
    is zero, never with both and never with neither. *)
Theorem valid_Duration_has_one_unit (d : Duration) (e1 e2 : ExpiresAt) :
  Duration_ValidateBasic d = None ->
  time_set e1 ->
  time.IsZero (Time e2) = true ->
  IsCompatible e1 d = negb (IsCompatible e2 d).
Proof.
  unfold time_set, IsCompatible. intros Hvalid -> ->. cbn [negb].
  revert Hvalid. destruct d as [ck bk]. settle.
Qed.

Lemma valid_Duration_has_one_unit_witness :
  IsCompatible (ExpiresAtTime 1000) (BlockDuration 30)
  = negb (IsCompatible (ExpiresAtHeight 100) (BlockDuration 30)).
Proof.
  apply (valid_Duration_has_one_unit (BlockDuration 30) (ExpiresAtTime 1000)
           (ExpiresAtHeight 100)).
  - reflexivity.
  - reflexivity.
  - reflexivity.
Defined.
